(** * The complex-test skill: bordered formatter and its command line

    A shallow embedding of

      - [scripts/utils/helpers/formatter.py] : [format_output]
      - [scripts/main.py]                    : [main]

    Python's [str] is a sequence of Unicode code points and [len] counts
    code points, so a string is a list of code points here, not a list of
    bytes.  The standard library calls of [main.py] ([argparse], [open],
    [json.load], [print]) are modelled after CPython 3.11; what the
    interpreter brings along and is not written out here (the JSON decoder,
    the table of printable code points, the stream behind [sys.stdout]) is
    a field of [Runtime]. *)

From Stdlib Require Import List String Ascii NArith ZArith Lia Bool DecimalString.
Import ListNotations.

(** ** Python strings *)

Module PyStr.

(** A code point.  Nothing below depends on the bound [0x10FFFF]. *)
Definition codepoint := N.

Definition str := list codepoint.

(** A literal of ASCII characters, read as code points. *)
Definition lit (s : string) : str :=
  map N_of_ascii (list_ascii_of_string s).

(** ["\n"] *)
Definition LF : codepoint := 10%N.

(** ["="] *)
Definition EQUALS : codepoint := 61%N.

(** ["-"] *)
Definition DASH : codepoint := 45%N.

(** [" "] *)
Definition SPACE : codepoint := 32%N.

(** ["."] *)
Definition DOT : codepoint := 46%N.

(** [len(s)] *)
Definition len (s : str) : nat := List.length s.

(** [c * n] for a one-character string [c]. *)
Definition times (c : codepoint) (n : nat) : str := repeat c n.

Definition codepoint_eqb : codepoint -> codepoint -> bool := N.eqb.

(** [s == t] *)
Fixpoint str_eqb (s t : str) : bool :=
  match s, t with
  | [], [] => true
  | c :: s', d :: t' => codepoint_eqb c d && str_eqb s' t'
  | _, _ => false
  end.

(** [s.startswith(prefix)] *)
Fixpoint startswith (s prefix : str) : bool :=
  match prefix, s with
  | [], _ => true
  | d :: prefix', c :: s' => codepoint_eqb c d && startswith s' prefix'
  | _ :: _, [] => false
  end.

(** [c in s] for a one-character string [c]. *)
Definition contains (c : codepoint) (s : str) : bool :=
  existsb (codepoint_eqb c) s.

(** [s.split(c, 1)] when [c in s]: the text before the first [c] and the
    text after it; [None] when [c] does not occur. *)
Fixpoint split_once (c : codepoint) (s : str) : option (str * str) :=
  match s with
  | [] => None
  | d :: s' =>
      if codepoint_eqb d c then Some ([], s')
      else match split_once c s' with
           | Some (before, after) => Some (d :: before, after)
           | None => None
           end
  end.

(** [sep.join(parts)] *)
Fixpoint join (sep : str) (parts : list str) : str :=
  match parts with
  | [] => []
  | [p] => p
  | p :: rest => p ++ sep ++ join sep rest
  end.

(** [s.split("\n")]: the pieces between line feeds; never empty. *)
Fixpoint split_lines (s : str) : list str :=
  match s with
  | [] => [[]]
  | c :: rest =>
      if codepoint_eqb c LF then [] :: split_lines rest
      else match split_lines rest with
           | [] => [[c]]
           | line :: lines => (c :: line) :: lines
           end
  end.

(** [ "\n" not in s ] *)
Definition has_no_newline (s : str) : Prop := ~ In LF s.

(** The code points that the pattern [\d] matches in a [str] (Unicode
    category Nd), as inclusive ranges. *)
Definition decimal_ranges : list (N * N) := [
  (48, 57); (1632, 1641); (1776, 1785); (1984, 1993); (2406, 2415);
  (2534, 2543); (2662, 2671); (2790, 2799); (2918, 2927); (3046, 3055);
  (3174, 3183); (3302, 3311); (3430, 3439); (3558, 3567); (3664, 3673);
  (3792, 3801); (3872, 3881); (4160, 4169); (4240, 4249); (6112, 6121);
  (6160, 6169); (6470, 6479); (6608, 6617); (6784, 6793); (6800, 6809);
  (6992, 7001); (7088, 7097); (7232, 7241); (7248, 7257); (42528, 42537);
  (43216, 43225); (43264, 43273); (43472, 43481); (43504, 43513);
  (43600, 43609); (44016, 44025); (65296, 65305); (66720, 66729);
  (68912, 68921); (69734, 69743); (69872, 69881); (69942, 69951);
  (70096, 70105); (70384, 70393); (70736, 70745); (70864, 70873);
  (71248, 71257); (71360, 71369); (71472, 71481); (71904, 71913);
  (72016, 72025); (72784, 72793); (73040, 73049); (73120, 73129);
  (92768, 92777); (92864, 92873); (93008, 93017); (120782, 120831);
  (123200, 123209); (123632, 123641); (125264, 125273); (130032, 130041)
]%N.

Definition is_decimal (c : codepoint) : bool :=
  existsb (fun r => (fst r <=? c)%N && (c <=? snd r)%N) decimal_ranges.

(** Lower-case hexadecimal, as the escapes of [repr] use it: one digit,
    and the last [width] digits of [n]. *)
Definition hex_digit (n : N) : codepoint :=
  if (n <? 10)%N then (48 + n)%N else (87 + n)%N.

Fixpoint hex (width : nat) (n : N) : str :=
  match width with
  | O => []
  | S w => hex w (n / 16) ++ [hex_digit (n mod 16)]
  end.

End PyStr.

Import PyStr.

(** ** Python values and exceptions *)

Set Warnings "-register-all".

(** The objects [json.load] builds, and [str].  A float is carried by its
    [repr], which is all this program asks of it; a [dict] by its items in
    insertion order. *)
Inductive value : Type :=
| VNone
| VBool (b : bool)
| VInt (z : Z)
| VFloat (repr_text : str)
| VStr (s : str)
| VList (items : list value)
| VDict (items : list (str * value)).

(** The exceptions other than [SystemExit] that reach this program. *)
Inductive error : Type :=
| TypeError
| ValueError
| KeyError (key : value)
| FileNotFoundError
| PermissionError
| IsADirectoryError
| OSError
| UnicodeDecodeError
| JSONDecodeError
| RecursionError
| UnicodeEncodeError.

Inductive exn : Type :=
| SystemExit (code : Z)
| Raised (e : error).

(** ** argparse, for the parser that [main] builds

    [ArgumentParser(description=...)] with the default [-h/--help] action
    and [add_argument("--config", required=True)]; after
    [ArgumentParser.parse_args] of CPython 3.11. *)

Module Argparse.

Inductive action : Type :=
| HelpAction     (* nargs = 0 *)
| StoreConfig.   (* nargs = None, dest = "config", required *)

(** [parser._option_string_actions], in insertion order. *)
Definition option_string_actions : list (str * action) :=
  [ (lit "-h", HelpAction); (lit "--help", HelpAction);
    (lit "--config", StoreConfig) ].

Fixpoint assoc {A : Type} (key : str) (table : list (str * A)) : option A :=
  match table with
  | [] => None
  | (k, a) :: rest => if str_eqb k key then Some a else assoc key rest
  end.

(** [(action, option_string, explicit_arg)] *)
Definition option_tuple : Type := (option action * str * option str)%type.

(** The messages of [parser.error]. *)
Inductive arg_error : Type :=
| AmbiguousOption (arg_string : str) (matches : list str)
| UnexpectedOptionString (arg_string : str)
| ExpectedOneArgument (a : action)
| IgnoredExplicitArgument (a : action) (explicit_arg : str)
| ArgumentsRequired
| UnrecognizedArguments (extras : list str).

(** [_get_option_tuples] *)
Definition get_option_tuples (option_string : str)
  : arg_error + list option_tuple :=
  match option_string with
  | c0 :: c1 :: _ =>
      if codepoint_eqb c0 DASH && codepoint_eqb c1 DASH then
        let '(option_prefix, explicit_arg) :=
          match split_once EQUALS option_string with
          | Some (before, after) => (before, Some after)
          | None => (option_string, None)
          end in
        inr (flat_map
               (fun entry : str * action =>
                  let (os, a) := entry in
                  if startswith os option_prefix
                  then [(Some a, os, explicit_arg)] else [])
               option_string_actions)
      else if codepoint_eqb c0 DASH then
        let short_option_prefix := firstn 2 option_string in
        let short_explicit_arg := skipn 2 option_string in
        inr (flat_map
               (fun entry : str * action =>
                  let (os, a) := entry in
                  if str_eqb os short_option_prefix
                  then [(Some a, os, Some short_explicit_arg)]
                  else if startswith os option_string
                  then [(Some a, os, None)] else [])
               option_string_actions)
      else inl (UnexpectedOptionString option_string)
  | _ => inl (UnexpectedOptionString option_string)
  end.

(** The text a final ["$"] of a pattern is matched against: the string, or
    the string without its last character when that is a line feed. *)
Fixpoint before_final_newline (s : str) : str :=
  match s with
  | [] => []
  | [c] => if codepoint_eqb c LF then [] else [c]
  | c :: rest => c :: before_final_newline rest
  end.

Definition digits (s : str) : bool := forallb is_decimal s.

Definition nonempty (s : str) : bool :=
  match s with [] => false | _ :: _ => true end.

(** [_negative_number_matcher.match]: ["^-\d+$|^-\d*\.\d+$"] *)
Definition negative_number_like (arg_string : str) : bool :=
  match before_final_newline arg_string with
  | c :: rest =>
      codepoint_eqb c DASH
      && ((nonempty rest && digits rest)
          || match split_once DOT rest with
             | Some (whole, frac) => digits whole && nonempty frac && digits frac
             | None => false
             end)
  | [] => false
  end.

(** [_parse_optional]: [None] for a positional, an option tuple for an
    optional. *)
Definition parse_optional (arg_string : str)
  : arg_error + option option_tuple :=
  match arg_string with
  | [] => inr None
  | c :: _ =>
      if negb (codepoint_eqb c DASH) then inr None
      else
        match assoc arg_string option_string_actions with
        | Some a => inr (Some (Some a, arg_string, None))
        | None =>
            if Nat.eqb (len arg_string) 1 then inr None
            else
              let by_equals :=
                match split_once EQUALS arg_string with
                | Some (option_string, explicit_arg) =>
                    match assoc option_string option_string_actions with
                    | Some a => Some (Some a, option_string, Some explicit_arg)
                    | None => None
                    end
                | None => None
                end in
              match by_equals with
              | Some t => inr (Some t)
              | None =>
                  match get_option_tuples arg_string with
                  | inl e => inl e
                  | inr [t] => inr (Some t)
                  | inr ((t :: _ :: _) as ts) =>
                      inl (AmbiguousOption arg_string
                             (map (fun t : option_tuple => snd (fst t)) ts))
                  | inr [] =>
                      if negative_number_like arg_string then inr None
                      else if contains SPACE arg_string then inr None
                      else inr (Some (None, arg_string, None))
                  end
              end
        end
  end.

(** One character of [arg_strings_pattern], with the option tuple that
    [option_string_indices] keeps for an ['O']. *)
Inductive pattern : Type :=
| A
| O (t : option_tuple)
| Dashes.

(** The first loop of [_parse_known_args]. *)
Fixpoint arg_strings_pattern (arg_strings : list str)
  : arg_error + list (str * pattern) :=
  match arg_strings with
  | [] => inr []
  | arg_string :: rest =>
      if str_eqb arg_string (lit "--") then
        inr ((arg_string, Dashes) :: map (fun s => (s, A)) rest)
      else
        match parse_optional arg_string with
        | inl e => inl e
        | inr cls =>
            match arg_strings_pattern rest with
            | inl e => inl e
            | inr parts =>
                inr ((arg_string,
                      match cls with None => A | Some t => O t end) :: parts)
            end
        end
  end.

(** How many argument strings an optional takes ([_get_nargs_pattern] is
    ["()"] for the help action and ["(A)"] for [--config]). *)
Definition nargs (a : action) : nat :=
  match a with HelpAction => 0 | StoreConfig => 1 end.

(** [(action, args, option_string)] *)
Definition action_tuple : Type := (action * list str * str)%type.

(** The loop of [consume_optional] while there is an explicit argument:
    the action tuples gathered, and the single-dash option that is left
    without explicit argument, if any. *)
Fixpoint consume_explicit (a : action) (option_string explicit_arg : str)
  : arg_error + (list action_tuple * option (action * str)) :=
  match explicit_arg with
  | c :: tail =>
      if Nat.eqb (nargs a) 0
         && negb (codepoint_eqb (nth 1 option_string DASH) DASH)
      then
        let option_string' := [hd DASH option_string; c] in
        match assoc option_string' option_string_actions with
        | Some a' =>
            match tail with
            | [] => inr ([(a, [], option_string)], Some (a', option_string'))
            | _ :: _ =>
                match consume_explicit a' option_string' tail with
                | inl e => inl e
                | inr (tuples, pending) =>
                    inr ((a, [], option_string) :: tuples, pending)
                end
            end
        | None => inl (IgnoredExplicitArgument a explicit_arg)
        end
      else if Nat.eqb (nargs a) 1 then
        inr ([(a, [explicit_arg], option_string)], None)
      else inl (IgnoredExplicitArgument a explicit_arg)
  | [] =>
      if Nat.eqb (nargs a) 1 then
        inr ([(a, [explicit_arg], option_string)], None)
      else inl (IgnoredExplicitArgument a explicit_arg)
  end.

(** [arg_strings.remove("--")] *)
Fixpoint remove_first_dashes (arg_strings : list str) : list str :=
  match arg_strings with
  | [] => []
  | s :: rest =>
      if str_eqb s (lit "--") then rest else s :: remove_first_dashes rest
  end.

(** What [_get_values] hands to the store action of [--config]: the one
    string, or, when stripping ["--"] leaves another number of strings, the
    list of them. *)
Inductive values : Type :=
| Single (arg_string : str)
| Several (arg_strings : list str).

Definition get_values (arg_strings : list str) : values :=
  match remove_first_dashes arg_strings with
  | [arg_string] => Single arg_string
  | others => Several others
  end.

(** The namespace, the actions seen and the extras. *)
Record state : Type := {
  config : option values;      (* [None] is the default, Python's [None] *)
  seen_config : bool;
  extras : list str
}.

Definition initial : state :=
  {| config := None; seen_config := false; extras := [] |}.

Definition add_extra (s : str) (st : state) : state :=
  {| config := config st; seen_config := seen_config st;
     extras := extras st ++ [s] |}.

Inductive outcome : Type :=
| Namespace (config : option values)
| HelpExit                       (* print_help(); exit(0) *)
| UsageError (e : arg_error).    (* print_usage(stderr); exit(2, message) *)

(** [take_action] over the action tuples of one optional: [None] when the
    help action exits. *)
Fixpoint take_actions (tuples : list action_tuple) (st : state)
  : option state :=
  match tuples with
  | [] => Some st
  | (HelpAction, _, _) :: _ => None
  | (StoreConfig, args, _) :: rest =>
      take_actions rest
        {| config := Some (get_values args); seen_config := true;
           extras := extras st |}
  end.

(** What follows the loops: required actions, then, in [parse_args], the
    extras. *)
Definition finish (st : state) : outcome :=
  if negb (seen_config st) then UsageError ArgumentsRequired
  else match extras st with
       | [] => Namespace (config st)
       | _ :: _ => UsageError (UnrecognizedArguments (extras st))
       end.

(** The main loop of [_parse_known_args].  The parser has no positional
    action, so [consume_positionals] takes nothing and every ['A'] or
    ['-'] that no optional takes goes to the extras. *)
Fixpoint consume (parts : list (str * pattern)) (st : state) : outcome :=
  match parts with
  | [] => finish st
  | (s, A) :: rest => consume rest (add_extra s st)
  | (s, Dashes) :: rest => consume rest (add_extra s st)
  | (s, O (None, _, _)) :: rest => consume rest (add_extra s st)
  | (s, O (Some a, option_string, explicit)) :: rest =>
      match
        match explicit with
        | Some explicit_arg => consume_explicit a option_string explicit_arg
        | None => inr ([], Some (a, option_string))
        end
      with
      | inl e => UsageError e
      | inr (tuples, None) =>
          match take_actions tuples st with
          | None => HelpExit
          | Some st' => consume rest st'
          end
      | inr (tuples, Some (a', option_string')) =>
          match nargs a' with
          | 0 =>
              match take_actions (tuples ++ [(a', [], option_string')]) st with
              | None => HelpExit
              | Some st' => consume rest st'
              end
          | _ =>
              match rest with
              | (arg, A) :: rest' =>
                  match
                    take_actions (tuples ++ [(a', [arg], option_string')]) st
                  with
                  | None => HelpExit
                  | Some st' => consume rest' st'
                  end
              | _ => UsageError (ExpectedOneArgument a')
              end
          end
      end
  end.

(** [parser.parse_args()] on [sys.argv[1:]]. *)
Definition parse_args (argv : list str) : outcome :=
  match arg_strings_pattern argv with
  | inl e => UsageError e
  | inr parts => consume parts initial
  end.

End Argparse.

(** ** Streams and the runtime *)

(** What was written to a stream. *)
Inductive output : Type :=
| Printed (text : str)                    (* [print(text)]: the text and a line feed *)
| Help                                    (* [parser.print_help()] *)
| Usage (e : Argparse.arg_error)          (* [parser.error(message)] *)
| Traceback (e : error)                   (* an exception nobody caught *)
| Written (text : str)                    (* the text of a [print] whose line feed was refused *)
| Ignored (e : error).                    (* the exception of the flush at exit, reported and dropped *)

(** What the interpreter brings along. *)
Record Runtime : Type := {
  (** [json.loads(text)]: the decoded object, or the exception raised. *)
  json_loads : str -> error + value;
  (** [ch.isprintable()] for a code point above [0x7f]. *)
  isprintable : codepoint -> bool;
  (** [sys.stdout.write(text)] after the writes so far: the exception it
      raises, if any ([UnicodeEncodeError] when the encoding of the stream
      has no bytes for the text, [OSError] when the device refuses). *)
  stdout_write : list output -> str -> option error;
  (** The flush of [sys.stdout] when the interpreter exits, after the
      writes so far: the exception it raises, if any. *)
  stdout_flush : list output -> option error
}.

(** ** [repr] and [str] *)

(** One character of [repr(s)] for a [str], quoted with [quote]. *)
Definition repr_char (rt : Runtime) (quote : codepoint) (c : codepoint) : str :=
  if codepoint_eqb c quote || codepoint_eqb c 92%N then [92%N; c]
  else if codepoint_eqb c 9%N then lit "\t"
  else if codepoint_eqb c 10%N then lit "\n"
  else if codepoint_eqb c 13%N then lit "\r"
  else if (c <? 32)%N || codepoint_eqb c 127%N then lit "\x" ++ hex 2 c
  else if (c <? 127)%N then [c]
  else if isprintable rt c then [c]
  else if (c <=? 255)%N then lit "\x" ++ hex 2 c
  else if (c <=? 65535)%N then lit "\u" ++ hex 4 c
  else lit "\U" ++ hex 8 c.

(** [repr(s)] for a [str]: double quotes when [s] holds a single quote and
    no double quote, single quotes otherwise. *)
Definition repr_str (rt : Runtime) (s : str) : str :=
  let quote :=
    if contains 39%N s && negb (contains 34%N s) then 34%N else 39%N in
  [quote] ++ flat_map (repr_char rt quote) s ++ [quote].

(** [str(z)] for an [int]. *)
Definition str_of_int (z : Z) : str := lit (NilZero.string_of_int (Z.to_int z)).

(** [repr(v)] *)
Fixpoint repr (rt : Runtime) (v : value) : str :=
  match v with
  | VNone => lit "None"
  | VBool true => lit "True"
  | VBool false => lit "False"
  | VInt z => str_of_int z
  | VFloat r => r
  | VStr s => repr_str rt s
  | VList items => lit "[" ++ join (lit ", ") (map (repr rt) items) ++ lit "]"
  | VDict items =>
      lit "{"
      ++ join (lit ", ")
           (map (fun kv => match kv with
                           | (k, x) => repr_str rt k ++ lit ": " ++ repr rt x
                           end) items)
      ++ lit "}"
  end.

(** [str(v)], which is also [format(v, "")], what an f-string field
    [{v}] expands to: a [str] is itself, everything else is its [repr]. *)
Definition py_str (rt : Runtime) (v : value) : str :=
  match v with
  | VStr s => s
  | _ => repr rt v
  end.

(** ** formatter.py *)

(** [border = "=" * (len(message) + 4)] *)
Definition border (message : str) : str := times EQUALS (len message + 4).

(** [f"{border}\n| {message} |\n{border}"], for a [message] that is a
    [str], as the signature has it. *)
Definition format_output (message : str) : str :=
  border message ++ [LF] ++ lit "| " ++ message ++ lit " |" ++ [LF]
    ++ border message.

(** ** The world of one run *)

(** What [open(path)] and reading it to the end come to. *)
Inductive file : Type :=
| CannotOpen (e : error)
| CannotRead (e : error)
| Text (content : str).

(** The surroundings of the process. *)
Record Env : Type := {
  argv : list str;          (* [sys.argv[1:]] *)
  files : str -> file
}.

Record World : Type := {
  stdout : list output;
  stderr : list output;
  opened : list str;        (* the paths opened, in order *)
  closed : list str         (* the paths closed, in order *)
}.

Definition untouched : World :=
  {| stdout := []; stderr := []; opened := []; closed := [] |}.

(** A computation that returns or raises, and may write. *)
Definition M (X : Type) : Type := World -> (exn + X) * World.

Definition ret {X : Type} (x : X) : M X := fun w => (inr x, w).

Definition raise {X : Type} (e : exn) : M X := fun w => (inl e, w).

Definition bind {X Y : Type} (c : M X) (k : X -> M Y) : M Y :=
  fun w =>
    match c w with
    | (inr x, w') => k x w'
    | (inl e, w') => (inl e, w')
    end.

Notation "x <- c ;; k" := (bind c (fun x => k))
  (at level 61, c at next level, right associativity).
Notation "c ;; k" := (bind c (fun _ => k))
  (at level 61, right associativity).

(** A value or an exception that touches nothing. *)
Definition lift {X : Type} (r : error + X) : M X :=
  match r with
  | inr x => ret x
  | inl e => raise (Raised e)
  end.

Definition write_stdout (o : output) : M unit :=
  fun w => (inr tt, {| stdout := stdout w ++ [o]; stderr := stderr w;
                       opened := opened w; closed := closed w |}).

Definition write_stderr (o : output) : M unit :=
  fun w => (inr tt, {| stdout := stdout w; stderr := stderr w ++ [o];
                       opened := opened w; closed := closed w |}).

Definition log_open (path : str) : M unit :=
  fun w => (inr tt, {| stdout := stdout w; stderr := stderr w;
                       opened := opened w ++ [path]; closed := closed w |}).

Definition log_close (path : str) : M unit :=
  fun w => (inr tt, {| stdout := stdout w; stderr := stderr w;
                       opened := opened w; closed := closed w ++ [path] |}).

(** ** The calls of main.py *)

(** [parser.parse_args()]: the namespace's [config], or the help on
    standard output and [SystemExit(0)], or the usage message on standard
    error and [SystemExit(2)]. *)
Definition parse_args (env : Env) : M (option Argparse.values) :=
  match Argparse.parse_args (argv env) with
  | Argparse.Namespace config => ret config
  | Argparse.HelpExit => write_stdout Help ;; raise (SystemExit 0)
  | Argparse.UsageError e => write_stderr (Usage e) ;; raise (SystemExit 2)
  end.

(** An open text file: its path and what reading it gives. *)
Definition handle : Type := (str * file)%type.

(** [open(args.config)]: only a [str] is a path. *)
Definition open_ (env : Env) (path : option Argparse.values) : M handle :=
  match path with
  | Some (Argparse.Single p) =>
      match files env p with
      | CannotOpen e => raise (Raised e)
      | f => log_open p ;; ret (p, f)
      end
  | Some (Argparse.Several _) => raise (Raised TypeError)
  | None => raise (Raised TypeError)
  end.

(** [with f: body]: the file is closed whether [body] returns or raises. *)
Definition with_ {X : Type} (f : handle) (body : M X) : M X :=
  fun w =>
    match body w with
    | (r, w') => (r, snd (log_close (fst f) w'))
    end.

(** [json.load(f)]: [json.loads(f.read())]. *)
Definition json_load (rt : Runtime) (f : handle) : M value :=
  match snd f with
  | Text content => lift (json_loads rt content)
  | CannotRead e => raise (Raised e)
  | CannotOpen e => raise (Raised e)
  end.

(** [obj[key]] for a [str] key: a [dict] is looked up, nothing else takes
    a [str] subscript. *)
Definition getitem (obj : value) (key : str) : M value :=
  match obj with
  | VDict items =>
      match Argparse.assoc key items with
      | Some v => ret v
      | None => raise (Raised (KeyError (VStr key)))
      end
  | _ => raise (Raised TypeError)
  end.

(** [len(v)] *)
Definition py_len (v : value) : error + Z :=
  match v with
  | VStr s => inr (Z.of_nat (len s))
  | VList items => inr (Z.of_nat (List.length items))
  | VDict items => inr (Z.of_nat (List.length items))
  | _ => inl TypeError
  end.

(** [format_output(message)] as the interpreter runs it, on whatever
    object it is given. *)
Definition format_output_call (rt : Runtime) (message : value) : M value :=
  n <- lift (py_len message) ;;
  let border := VStr (times EQUALS (Z.to_nat (n + 4))) in
  ret (VStr (py_str rt border ++ [LF] ++ lit "| " ++ py_str rt message
             ++ lit " |" ++ [LF] ++ py_str rt border)).

(** [print(v)]: [sys.stdout.write(str(v))], then [sys.stdout.write("\n")];
    either write may raise, and what was written before stays written. *)
Definition print (rt : Runtime) (v : value) : M unit :=
  fun w =>
    let text := py_str rt v in
    match stdout_write rt (stdout w) text with
    | Some e => (inl (Raised e), w)
    | None =>
        match stdout_write rt (stdout w ++ [Written text]) [LF] with
        | Some e => (inl (Raised e), snd (write_stdout (Written text) w))
        | None => write_stdout (Printed text) w
        end
    end.

(** The fixed success line; its first character is U+2705. *)
Definition success_line : str :=
  [9989%N] ++ lit " Complex skill executed successfully!".

(** ** main.py *)

Definition main (rt : Runtime) (env : Env) : M unit :=
  config_path <- parse_args env ;;
  f <- open_ env config_path ;;
  config <- with_ f (json_load rt f) ;;
  name <- getitem config (lit "name") ;;
  block <- format_output_call rt (VStr (lit "Loaded config: " ++ py_str rt name)) ;;
  print rt block ;;
  print rt (VStr success_line).

(** How the process ends. *)
Record Result : Type := {
  exit_status : Z;
  world : World
}.

(** [python main.py ...]: status 0 when [main] returns, the code of a
    [SystemExit], and a traceback on standard error with status 1 for any
    other exception. *)
Definition run (rt : Runtime) (env : Env) : Result :=
  match main rt env untouched with
  | (inr _, w) => {| exit_status := 0; world := w |}
  | (inl (SystemExit code), w) => {| exit_status := code; world := w |}
  | (inl (Raised e), w) =>
      {| exit_status := 1; world := snd (write_stderr (Traceback e) w) |}
  end.

(** The process to its end: after [run], the interpreter flushes
    [sys.stdout]; when something was written and the flush raises, the
    exception is reported on standard error and the status becomes 120,
    whatever it was. *)
Definition process (rt : Runtime) (env : Env) : Result :=
  let r := run rt env in
  match stdout (world r) with
  | [] => r
  | _ :: _ =>
      match stdout_flush rt (stdout (world r)) with
      | None => r
      | Some e =>
          {| exit_status := 120;
             world := snd (write_stderr (Ignored e) (world r)) |}
      end
  end.

(** ** The properties in question *)

(** The three-line reading of a formatted block: split at line feeds, the
    block has exactly three lines, the first equals the third and has
    [len(m) + 4] characters, and the second is ["| " + m + " |"]. *)
Definition three_line_block (m : str) : Prop :=
  exists l1 l2 l3,
    split_lines (format_output m) = [l1; l2; l3]
    /\ l1 = l3
    /\ len l1 = len m + 4
    /\ l2 = lit "| " ++ m ++ lit " |".

(** The two writes of a successful run with [message] in the block. *)
Definition success_output (message : str) : list output :=
  [Printed (format_output message); Printed success_line].

(** [arg_string] is taken as the [--config] option: ["--config"], an
    abbreviation of it, or one of these followed by ["=..."]. *)
Definition names_config (arg_string : str) : bool :=
  match Argparse.parse_optional arg_string with
  | inr (Some (Some Argparse.StoreConfig, _, _)) => true
  | _ => false
  end.

(** No [--config] on the command line. *)
Definition config_absent (args : list str) : Prop :=
  forallb (fun s => negb (names_config s)) args = true.

(** The pattern has no optional that stores [config]. *)
Definition stores_config (pt : Argparse.pattern) : bool :=
  match pt with
  | Argparse.O (Some Argparse.StoreConfig, _, _) => true
  | _ => false
  end.

Definition no_config (parts : list (str * Argparse.pattern)) : Prop :=
  forallb (fun part => negb (stores_config (snd part))) parts = true.

(** No argument is taken as the [--config] option: the pattern of the
    command line, when it has one, holds no optional that stores
    [config].  A string after ["--"] is an argument whatever it looks
    like. *)
Definition config_untaken (args : list str) : Prop :=
  forall parts,
    Argparse.arg_strings_pattern args = inr parts -> no_config parts.



(** The parser comes back with the path [p] for [config]: the path that
    [main] hands to [open]. *)
Definition config_is (env : Env) (p : str) : Prop :=
  Argparse.parse_args (argv env)
  = Argparse.Namespace (Some (Argparse.Single p)).

(** [--config p] stands somewhere on the command line. *)
Definition referenced (env : Env) (p : str) : Prop :=
  exists before after, argv env = before ++ lit "--config" :: p :: after.







(** [sys.stdout] takes [print(text)] after the writes [before]: neither
    the write of the text nor that of the line feed raises. *)
Definition accepted (rt : Runtime) (before : list output) (text : str)
  : Prop :=
  stdout_write rt before text = None
  /\ stdout_write rt (before ++ [Written text]) [LF] = None.

(** [sys.stdout] takes the prints of [texts] one after the other, and the
    flush at exit after them. *)
Fixpoint stdout_takes (rt : Runtime) (before : list output)
  (texts : list str) : Prop :=
  match texts with
  | [] => stdout_flush rt before = None
  | text :: rest =>
      accepted rt before text
      /\ stdout_takes rt (before ++ [Printed text]) rest
  end.


(** What the run comes to once the file is loaded: the two prints, from
    the world in which [p] was opened and closed. *)
Definition prints (rt : Runtime) (message : str) : M unit :=
  print rt (VStr (format_output message)) ;;
  print rt (VStr success_line).

Definition loaded (p : str) : World :=
  {| stdout := []; stderr := []; opened := [p]; closed := [p] |}.

(** The status and the traceback, as [run] gives them. *)
Definition exit_of (r : (exn + unit) * World) : Result :=
  match r with
  | (inr _, w) => {| exit_status := 0; world := w |}
  | (inl (SystemExit code), w) => {| exit_status := code; world := w |}
  | (inl (Raised e), w) =>
      {| exit_status := 1; world := snd (write_stderr (Traceback e) w) |}
  end.

(** ** Sample inputs *)

(** ["a\nb"] *)
Definition two_line_message : str := lit "a" ++ [LF] ++ lit "b".

(** The double quote. *)
Definition QUOTE : codepoint := 34%N.

Definition quoted (s : string) : str := [QUOTE] ++ lit s ++ [QUOTE].

(** The object with the one member name : demo, both as JSON strings. *)
Definition demo_json : str :=
  lit "{" ++ quoted "name" ++ lit ":" ++ quoted "demo" ++ lit "}".

(** The object with the one member name : 42. *)
Definition number_json : str :=
  lit "{" ++ quoted "name" ++ lit ":42}".

(** The object with the one member other : x. *)
Definition other_json : str :=
  lit "{" ++ quoted "other" ++ lit ":" ++ quoted "x" ++ lit "}".

Definition demo_config : value := VDict [(lit "name", VStr (lit "demo"))].

(** The object with the one member name, whose value is the JSON string
    of the single escape for U+D800, a surrogate without its pair. *)
Definition surrogate_json : str :=
  lit "{" ++ quoted "name" ++ lit ":" ++ quoted "\ud800" ++ lit "}".

(** A surrogate code point, U+D800 to U+DFFF. *)
Definition is_surrogate (c : codepoint) : bool :=
  (55296 <=? c)%N && (c <=? 57343)%N.

(** A stream encoded in UTF-8 with strict error handling: it takes every
    text without surrogate. *)
Definition utf8_write (before : list output) (text : str) : option error :=
  if existsb is_surrogate text then Some UnicodeEncodeError else None.

(** A stream encoded in Latin-1 with strict error handling: it takes the
    code points up to U+00FF. *)
Definition latin1_write (before : list output) (text : str) : option error :=
  if forallb (fun c => (c <=? 255)%N) text then None
  else Some UnicodeEncodeError.

(** The documents the sample runtime decodes. *)
Definition sample_documents : list (str * value) :=
  [ (demo_json, demo_config);
    (number_json, VDict [(lit "name", VInt 42)]);
    (other_json, VDict [(lit "other", VStr (lit "x"))]);
    (surrogate_json, VDict [(lit "name", VStr [55296%N])]) ].

(** A runtime that decodes the sample documents and rejects every other
    text, with standard output on a UTF-8 terminal. *)
Definition sample_runtime : Runtime :=
  {| json_loads := fun content =>
       match Argparse.assoc content sample_documents with
       | Some v => inr v
       | None => inl JSONDecodeError
       end;
     isprintable := fun _ => true;
     stdout_write := utf8_write;
     stdout_flush := fun _ => None |}.

(** The same with standard output on a device that is full: the writes
    are buffered, the flush at exit is refused. *)
Definition full_runtime : Runtime :=
  {| json_loads := json_loads sample_runtime;
     isprintable := isprintable sample_runtime;
     stdout_write := stdout_write sample_runtime;
     stdout_flush := fun _ => Some OSError |}.

(** The same with standard output encoded in Latin-1. *)
Definition latin1_runtime : Runtime :=
  {| json_loads := json_loads sample_runtime;
     isprintable := isprintable sample_runtime;
     stdout_write := latin1_write;
     stdout_flush := fun _ => None |}.

(** A directory with a few files; every other path does not exist. *)
Definition sample_files : list (str * file) :=
  [ (lit "demo.json", Text demo_json);
    (lit "number.json", Text number_json);
    (lit "other.json", Text other_json);
    (lit "notes.txt", Text (lit "not json"));
    (lit "locked.json", CannotOpen PermissionError);
    (lit "surrogate.json", Text surrogate_json) ].

Definition sample_env (args : list string) : Env :=
  {| argv := map lit args;
     files := fun p =>
       match Argparse.assoc p sample_files with
       | Some f => f
       | None => CannotOpen FileNotFoundError
       end |}.

(** ** Further notions *)

(** [s.count("\n")] *)
Definition newlines (s : str) : nat := count_occ N.eq_dec s LF.

(** ["| " + m + " |"], the text between the two borders. *)
Definition middle (m : str) : str := lit "| " ++ m ++ lit " |".

(** An object [len] does not accept. *)
Definition unsized (v : value) : Prop :=
  match v with
  | VNone | VBool _ | VInt _ | VFloat _ => True
  | VStr _ | VList _ | VDict _ => False
  end.

(** No leading dash: the parser takes such a string as an argument, never
    as an option. *)
Definition plain (s : str) : Prop := hd SPACE s <> DASH.

(** ["--config=" + p] *)
Definition config_equals (p : str) : str := lit "--config=" ++ p.

(** The abbreviations of [--config] that the parser accepts, the full
    option string included. *)
Definition config_abbreviations : list str :=
  map lit ["--c"; "--co"; "--con"; "--conf"; "--confi"; "--config"]%string.

(** The object with the one member name : 42, the number written as a
    JSON string. *)
Definition quoted_number_json : str :=
  lit "{" ++ quoted "name" ++ lit ":" ++ quoted "42" ++ lit "}".

(** A JSON array. *)
Definition array_json : str := lit "[1, 2]".

(** A runtime that decodes a few more documents. *)
Definition second_runtime : Runtime :=
  {| json_loads := fun content =>
       if str_eqb content quoted_number_json
       then inr (VDict [(lit "name", VStr (lit "42"))])
       else if str_eqb content array_json
       then inr (VList [VInt 1; VInt 2])
       else json_loads sample_runtime content;
     isprintable := isprintable sample_runtime;
     stdout_write := stdout_write sample_runtime;
     stdout_flush := stdout_flush sample_runtime |}.

(** The sample directory with two more files. *)
Definition second_env (args : list string) : Env :=
  {| argv := map lit args;
     files := fun p =>
       if str_eqb p (lit "quoted.json") then Text quoted_number_json
       else if str_eqb p (lit "array.json") then Text array_json
       else files (sample_env args) p |}.

(** The ways a run can end, as the final status and world. *)
Inductive ending (rt : Runtime) (env : Env) : Result -> Prop :=
| EndUsage e :
    Argparse.parse_args (argv env) = Argparse.UsageError e ->
    ending rt env
      {| exit_status := 2;
         world := {| stdout := []; stderr := [Usage e];
                     opened := []; closed := [] |} |}
| EndHelp :
    Argparse.parse_args (argv env) = Argparse.HelpExit ->
    ending rt env
      {| exit_status := 0;
         world := {| stdout := [Help]; stderr := [];
                     opened := []; closed := [] |} |}
| EndNotOpened e :
    (exists c, Argparse.parse_args (argv env) = Argparse.Namespace c) ->
    ending rt env
      {| exit_status := 1;
         world := {| stdout := []; stderr := [Traceback e];
                     opened := []; closed := [] |} |}
| EndNotLoaded p e :
    config_is env p -> files env p <> CannotOpen e ->
    ending rt env
      {| exit_status := 1;
         world := {| stdout := []; stderr := [Traceback e];
                     opened := [p]; closed := [p] |} |}
| EndLoaded p content items v :
    config_is env p -> files env p = Text content ->
    json_loads rt content = inr (VDict items) ->
    Argparse.assoc (lit "name") items = Some v ->
    ending rt env
      (exit_of (prints rt (lit "Loaded config: " ++ py_str rt v) (loaded p))).

(** ** Lemmas on strings *)

Lemma len_times c n : len (times c n) = n.
Proof. apply repeat_length. Qed.

Lemma len_border m : len (border m) = len m + 4.
Proof. apply len_times. Qed.

Lemma times_no_newline n : has_no_newline (times EQUALS n).
Proof.
  intros H. apply repeat_spec in H. discriminate H.
Qed.

(** A string without line feed is a single line. *)
Lemma split_lines_one s : has_no_newline s -> split_lines s = [s].
Proof.
  induction s as [|c s IH]; intros H; [reflexivity|].
  simpl. destruct (codepoint_eqb c LF) eqn:E.
  - apply N.eqb_eq in E. exfalso. apply H. left. exact E.
  - rewrite IH; [reflexivity|]. intros Hin. apply H. right. exact Hin.
Qed.

(** Splitting distributes over a line feed that follows a clean prefix. *)
Lemma split_lines_app s t :
  has_no_newline s -> split_lines (s ++ [LF] ++ t) = s :: split_lines t.
Proof.
  induction s as [|c s IH]; intros H; [reflexivity|].
  change ((c :: s) ++ [LF] ++ t) with (c :: (s ++ [LF] ++ t)).
  cbn [split_lines]. destruct (codepoint_eqb c LF) eqn:E.
  - apply N.eqb_eq in E. exfalso. apply H. left. exact E.
  - rewrite IH; [reflexivity|]. intros Hin. apply H. right. exact Hin.
Qed.

Lemma no_newline_app s t :
  has_no_newline s -> has_no_newline t -> has_no_newline (s ++ t).
Proof.
  intros Hs Ht Hin. apply in_app_or in Hin.
  destruct Hin; [apply Hs | apply Ht]; assumption.
Qed.

Lemma bars_no_newline : has_no_newline (lit "| ") /\ has_no_newline (lit " |").
Proof. split; intros [H|[H|[]]]; discriminate H. Qed.

Lemma middle_no_newline m :
  has_no_newline m -> has_no_newline (lit "| " ++ m ++ lit " |").
Proof.
  intros H. destruct bars_no_newline as [Hl Hr].
  apply no_newline_app; [exact Hl|].
  apply no_newline_app; [exact H | exact Hr].
Qed.

Lemma len_format_output m : len (format_output m) = 3 * len m + 14.
Proof.
  unfold format_output, len. repeat rewrite length_app.
  fold (len (border m)). rewrite len_border. unfold len. simpl. lia.
Qed.

Lemma str_eqb_refl s : str_eqb s s = true.
Proof.
  induction s as [|c s IH]; [reflexivity|].
  simpl. unfold codepoint_eqb. rewrite N.eqb_refl. exact IH.
Qed.

(** ** Lemmas on the calls *)

(** On a [str] the formatter returns the block and touches nothing. *)
Lemma format_output_call_str rt m w :
  format_output_call rt (VStr m) w = (inr (VStr (format_output m)), w).
Proof.
  unfold format_output_call, bind, lift, ret. cbn [py_len py_str].
  replace (Z.to_nat (Z.of_nat (len m) + 4)) with (len m + 4) by lia.
  reflexivity.
Qed.

Ltac step :=
  cbn [ret raise lift bind log_open log_close write_stdout write_stderr
       getitem json_load with_ handle fst snd untouched
       stdout stderr opened closed app py_str].

Ltac run_main H :=
  unfold run, main, parse_args, bind; rewrite H; step.

(** The parser rejects the command line: usage message, status 2. *)
Lemma run_rejected rt env e :
  Argparse.parse_args (argv env) = Argparse.UsageError e ->
  run rt env
  = {| exit_status := 2;
       world := {| stdout := []; stderr := [Usage e];
                   opened := []; closed := [] |} |}.
Proof. intros H. run_main H. reflexivity. Qed.

(** The parser reaches the help option: help text, status 0. *)
Lemma run_help rt env :
  Argparse.parse_args (argv env) = Argparse.HelpExit ->
  run rt env
  = {| exit_status := 0;
       world := {| stdout := [Help]; stderr := [];
                   opened := []; closed := [] |} |}.
Proof. intros H. run_main H. reflexivity. Qed.

(** [open] raises: traceback, status 1, nothing opened. *)
Lemma run_cannot_open rt env p e :
  config_is env p -> files env p = CannotOpen e ->
  run rt env
  = {| exit_status := 1;
       world := {| stdout := []; stderr := [Traceback e];
                   opened := []; closed := [] |} |}.
Proof.
  intros H Hf. run_main H. unfold open_. rewrite Hf. reflexivity.
Qed.

(** Reading raises: traceback, status 1, the file closed again. *)
Lemma run_cannot_read rt env p e :
  config_is env p -> files env p = CannotRead e ->
  run rt env
  = {| exit_status := 1;
       world := {| stdout := []; stderr := [Traceback e];
                   opened := [p]; closed := [p] |} |}.
Proof.
  intros H Hf. run_main H. unfold open_. rewrite Hf. reflexivity.
Qed.

(** The decoder raises: traceback, status 1, the file closed again. *)
Lemma run_cannot_decode rt env p content e :
  config_is env p -> files env p = Text content ->
  json_loads rt content = inl e ->
  run rt env
  = {| exit_status := 1;
       world := {| stdout := []; stderr := [Traceback e];
                   opened := [p]; closed := [p] |} |}.
Proof.
  intros H Hf Hj. run_main H. unfold open_. rewrite Hf. step.
  rewrite Hj. reflexivity.
Qed.

(** The object has no [name]: [KeyError], status 1. *)
Lemma run_key_error rt env p content items :
  config_is env p -> files env p = Text content ->
  json_loads rt content = inr (VDict items) ->
  Argparse.assoc (lit "name") items = None ->
  run rt env
  = {| exit_status := 1;
       world := {| stdout := [];
                   stderr := [Traceback (KeyError (VStr (lit "name")))];
                   opened := [p]; closed := [p] |} |}.
Proof.
  intros H Hf Hj Hk. run_main H. unfold open_. rewrite Hf. step.
  rewrite Hj. step. rewrite Hk. reflexivity.
Qed.

(** The decoded object is no [dict]: [TypeError], status 1. *)
Lemma run_type_error rt env p content v :
  config_is env p -> files env p = Text content ->
  json_loads rt content = inr v ->
  (forall items, v <> VDict items) ->
  run rt env
  = {| exit_status := 1;
       world := {| stdout := []; stderr := [Traceback TypeError];
                   opened := [p]; closed := [p] |} |}.
Proof.
  intros H Hf Hj Hv. run_main H. unfold open_. rewrite Hf. step.
  rewrite Hj. destruct v; try reflexivity.
  exfalso. apply (Hv items). reflexivity.
Qed.

(** The namespace holds no [str]: [open] raises [TypeError]. *)
Lemma run_no_path rt env c :
  Argparse.parse_args (argv env) = Argparse.Namespace c ->
  (forall p, c <> Some (Argparse.Single p)) ->
  run rt env
  = {| exit_status := 1;
       world := {| stdout := []; stderr := [Traceback TypeError];
                   opened := []; closed := [] |} |}.
Proof.
  intros H Hc. run_main H.
  destruct c as [[p|l]|]; try reflexivity.
  exfalso. apply (Hc p). reflexivity.
Qed.

(** The object has a [name]: the run comes to the two prints. *)
Lemma run_loaded rt env p content items v :
  config_is env p -> files env p = Text content ->
  json_loads rt content = inr (VDict items) ->
  Argparse.assoc (lit "name") items = Some v ->
  run rt env
  = exit_of (prints rt (lit "Loaded config: " ++ py_str rt v) (loaded p)).
Proof.
  intros H Hf Hj Hk. run_main H. unfold open_. rewrite Hf. step.
  rewrite Hj. step. rewrite Hk. step.
  rewrite format_output_call_str. reflexivity.
Qed.

(** ** Lemmas on the prints *)

(** Standard output takes both prints: the block, the success line,
    status 0. *)
Lemma prints_taken rt message p :
  accepted rt [] (format_output message) ->
  accepted rt [Printed (format_output message)] success_line ->
  exit_of (prints rt message (loaded p))
  = {| exit_status := 0;
       world := {| stdout := success_output message; stderr := [];
                   opened := [p]; closed := [p] |} |}.
Proof.
  intros [Hb Hbn] [Hs Hsn]. cbn [app] in Hbn, Hsn.
  unfold prints, bind, print, loaded. cbn [stdout py_str app].
  rewrite Hb, Hbn. cbn [write_stdout stdout app].
  rewrite Hs, Hsn. reflexivity.
Qed.

(** Whatever standard output does, the prints leave the files alone. *)
Lemma prints_files rt message p :
  opened (world (exit_of (prints rt message (loaded p)))) = [p]
  /\ closed (world (exit_of (prints rt message (loaded p)))) = [p].
Proof.
  unfold prints, bind, print, loaded. cbn [stdout py_str app].
  destruct (stdout_write rt [] (format_output message)); [split; reflexivity|].
  destruct (stdout_write rt [Written (format_output message)] [LF]);
    [split; reflexivity|].
  cbn [write_stdout stdout app].
  destruct (stdout_write rt [Printed (format_output message)] success_line);
    [split; reflexivity|].
  destruct (stdout_write rt
              [Printed (format_output message); Written success_line] [LF]);
    split; reflexivity.
Qed.



(** The flush succeeds: the process ends as the run did. *)
Lemma process_flushed rt env :
  stdout_flush rt (stdout (world (run rt env))) = None ->
  process rt env = run rt env.
Proof.
  intros H. unfold process. rewrite H.
  destruct (stdout (world (run rt env))); reflexivity.
Qed.

(** ** Lemmas on the parser *)

Module ArgparseFacts.

Import Argparse.

(** The explicit argument of the help option: an error, or action tuples
    that start with the help action. *)
Lemma consume_explicit_help option_string explicit_arg tuples pending :
  consume_explicit HelpAction option_string explicit_arg = inr (tuples, pending) ->
  exists args os rest, tuples = (HelpAction, args, os) :: rest.
Proof.
  destruct explicit_arg as [|c tail]; cbn [consume_explicit nargs Nat.eqb andb];
    [discriminate|].
  destruct (negb (codepoint_eqb (nth 1 option_string DASH) DASH));
    [|discriminate].
  destruct (assoc [hd DASH option_string; c] option_string_actions) as [a'|];
    [|discriminate].
  destruct tail as [|c' tail'].
  - intros H. injection H as <- _. eauto.
  - destruct (consume_explicit a' [hd DASH option_string; c] (c' :: tail'))
      as [e|[tuples' pending']]; [discriminate|].
    intros H. injection H as <- _. eauto.
Qed.

Lemma take_actions_help args os rest st :
  take_actions ((HelpAction, args, os) :: rest) st = None.
Proof. reflexivity. Qed.

(** Without an option that stores [config], and none stored so far, the
    parser does not come back with a namespace. *)
Lemma consume_without_config parts :
  no_config parts ->
  forall st, seen_config st = false ->
  forall c, consume parts st <> Namespace c.
Proof.
  unfold no_config.
  induction parts as [|[s pt] rest IH]; intros Hno st Hseen c.
  - cbn [consume]. unfold finish. rewrite Hseen. discriminate.
  - cbn [forallb snd] in Hno. apply andb_prop in Hno. destruct Hno as [Hpt Hrest].
    destruct pt as [|[[[a|] option_string] explicit]|]; cbn [consume];
      try (apply IH; [exact Hrest | exact Hseen]).
    destruct a; [|discriminate Hpt].
    destruct explicit as [explicit_arg|].
    + destruct (consume_explicit HelpAction option_string explicit_arg)
        as [e|[tuples pending]] eqn:E; [discriminate|].
      apply consume_explicit_help in E. destruct E as (args & os & tl & ->).
      destruct pending as [[a' os']|].
      * destruct (nargs a').
        -- cbn [app]. rewrite take_actions_help. discriminate.
        -- destruct rest as [|[arg [| |]] rest']; discriminate.
      * rewrite take_actions_help. discriminate.
    + cbn [nargs app take_actions]. discriminate.
Qed.

Lemma arguments_no_config rest :
  no_config (map (fun s : str => (s, A)) rest).
Proof.
  unfold no_config. induction rest as [|s rest IH]; [reflexivity|exact IH].
Qed.

(** A command line without [--config] gives a pattern without it. *)
Lemma pattern_without_config args :
  config_absent args ->
  forall parts, arg_strings_pattern args = inr parts -> no_config parts.
Proof.
  unfold config_absent, no_config.
  induction args as [|arg_string rest IH]; intros Habs parts Hp.
  - injection Hp as <-. reflexivity.
  - cbn [forallb] in Habs. apply andb_prop in Habs. destruct Habs as [Ha Hrest].
    cbn [arg_strings_pattern] in Hp.
    destruct (str_eqb arg_string (lit "--")).
    + injection Hp as <-. cbn [forallb snd stores_config negb andb].
      apply arguments_no_config.
    + unfold names_config in Ha.
      destruct (parse_optional arg_string) as [e|cls]; [discriminate|].
      destruct (arg_strings_pattern rest) as [e|parts']; [discriminate|].
      injection Hp as <-. cbn [forallb snd]. rewrite (IH Hrest parts' eq_refl).
      rewrite andb_true_r.
      destruct cls as [[[[[|]|] os] explicit]|]; try reflexivity.
      discriminate Ha.
Qed.

(** Without [--config] the parser gives the help or rejects. *)
Lemma absent_config_no_namespace args c :
  config_absent args -> parse_args args <> Namespace c.
Proof.
  intros Habs. unfold parse_args.
  destruct (arg_strings_pattern args) as [e|parts] eqn:E; [discriminate|].
  apply consume_without_config; [|reflexivity].
  apply (pattern_without_config args Habs parts E).
Qed.

(** [--config p] names [p] whenever [p] does not start with a dash. *)
Lemma plain_config_parsed p :
  hd SPACE p <> DASH ->
  parse_args [lit "--config"; p] = Namespace (Some (Single p)).
Proof.
  intros Hp.
  assert (Hopt : parse_optional p = inr None).
  { destruct p as [|c tail]; [reflexivity|].
    cbn [parse_optional]. cbn [hd] in Hp.
    destruct (codepoint_eqb c DASH) eqn:E; [|reflexivity].
    apply N.eqb_eq in E. contradiction. }
  assert (Hdd : str_eqb p (lit "--") = false).
  { destruct p as [|c tail]; [reflexivity|].
    cbn [hd] in Hp. cbn. destruct (codepoint_eqb c 45%N) eqn:E; [|reflexivity].
    apply N.eqb_eq in E. contradiction. }
  unfold parse_args.
  change (arg_strings_pattern [lit "--config"; p])
    with (match arg_strings_pattern [p] with
          | inl e => inl e
          | inr parts =>
              inr ((lit "--config",
                    O (Some StoreConfig, lit "--config", None)) :: parts)
          end).
  cbn [arg_strings_pattern]. rewrite Hdd, Hopt.
  cbn [consume nargs app take_actions]. unfold get_values.
  cbn [remove_first_dashes]. rewrite Hdd. reflexivity.
Qed.

End ArgparseFacts.

Lemma absent_untaken args : config_absent args -> config_untaken args.
Proof.
  intros Habs parts Hp.
  exact (ArgparseFacts.pattern_without_config args Habs parts Hp).
Qed.


(** The file is loaded and standard output takes the two prints and the
    flush: the process ends with status 0 and the two prints. *)
Lemma process_loaded rt env p content items v :
  config_is env p -> files env p = Text content ->
  json_loads rt content = inr (VDict items) ->
  Argparse.assoc (lit "name") items = Some v ->
  stdout_takes rt []
    [format_output (lit "Loaded config: " ++ py_str rt v); success_line] ->
  process rt env
  = {| exit_status := 0;
       world := {| stdout := success_output (lit "Loaded config: " ++ py_str rt v);
                   stderr := []; opened := [p]; closed := [p] |} |}.
Proof.
  intros Hp Hf Hj Hk (Hb & Hs & Hflush). cbn [app] in Hs, Hflush.
  assert (Hrun : run rt env
                 = {| exit_status := 0;
                      world := {| stdout := success_output
                                              (lit "Loaded config: " ++ py_str rt v);
                                  stderr := []; opened := [p];
                                  closed := [p] |} |}).
  { rewrite (run_loaded rt env p content items v Hp Hf Hj Hk).
    apply prints_taken; assumption. }
  rewrite <- Hrun. apply process_flushed. rewrite Hrun. exact Hflush.
Qed.

(** ** The formatter's contract *)

(** C1: for every message, [format_output] is the border of
    [len(message) + 4] equals signs, a line feed, ["| " + message + " |"],
    a line feed, and the same border again. *)
Theorem format_output_shape (message : str) :
  format_output message
  = times EQUALS (len message + 4) ++ [LF]
      ++ (lit "| " ++ message ++ lit " |") ++ [LF]
      ++ times EQUALS (len message + 4).
Proof.
  unfold format_output, border. repeat rewrite <- app_assoc. reflexivity.
Qed.

(** C2, as stated, fails: a message that holds a line feed is formatted
    into four lines, not three. *)
Lemma three_line_block_fails_on_newline :
  List.length (split_lines (format_output two_line_message)) = 4
  /\ ~ three_line_block two_line_message.
Proof.
  split; [reflexivity|].
  intros (l1 & l2 & l3 & Hsplit & _). vm_compute in Hsplit. discriminate Hsplit.
Qed.

(** C2, amended: for every message without a line feed, the formatted block
    splits into exactly three lines, the first equal to the third and of
    length [len(m) + 4], the second equal to ["| " + m + " |"]. *)
Theorem format_output_three_lines (m : str) :
  has_no_newline m -> three_line_block m.
Proof.
  intros Hm.
  exists (border m), (lit "| " ++ m ++ lit " |"), (border m).
  split; [|repeat split; apply len_border].
  unfold format_output.
  rewrite split_lines_app by apply times_no_newline.
  replace (lit "| " ++ m ++ lit " |" ++ [LF] ++ border m)
    with ((lit "| " ++ m ++ lit " |") ++ [LF] ++ border m)
    by (now rewrite <- !app_assoc).
  rewrite split_lines_app by (apply middle_no_newline; exact Hm).
  rewrite split_lines_one by apply times_no_newline.
  reflexivity.
Qed.

Lemma format_output_three_lines_witness :
  has_no_newline (lit "ok") /\ three_line_block (lit "ok").
Proof.
  assert (H : has_no_newline (lit "ok")).
  { intros [H|[H|[]]]; discriminate H. }
  split; [exact H | apply (format_output_three_lines (lit "ok")); exact H].
Defined.

(** C7: [format_output("")] has a border of exactly four equals signs as
    its first and last line and ["|  |"] as its middle line. *)
Theorem format_output_empty :
  format_output (lit "")
  = lit "====" ++ [LF] ++ lit "|  |" ++ [LF] ++ lit "===="
  /\ split_lines (format_output (lit ""))
     = [lit "===="; lit "|  |"; lit "===="]
  /\ lit "====" = times EQUALS 4.
Proof. repeat split. Qed.

(** C8: [format_output("ok")] is exactly ["======\n| ok |\n======"], six
    equals signs in each border line. *)
Theorem format_output_ok :
  format_output (lit "ok")
  = lit "======" ++ [LF] ++ lit "| ok |" ++ [LF] ++ lit "======"
  /\ lit "======" = times EQUALS 6.
Proof. split; reflexivity. Qed.

(** C9: [format_output] is total and free of effects: called on any [str],
    the empty one included, it returns the block, raises nothing and
    leaves the world as it was; and the block depends on the message
    alone, whatever the runtime and the world. *)
Theorem format_output_total (rt : Runtime) (m : str) (w : World) :
  format_output_call rt (VStr m) w = (inr (VStr (format_output m)), w)
  /\ format_output_call rt (VStr []) w = (inr (VStr (format_output [])), w)
  /\ forall rt' w',
       fst (format_output_call rt' (VStr m) w')
       = fst (format_output_call rt (VStr m) w).
Proof.
  repeat split; intros; rewrite ?format_output_call_str; reflexivity.
Qed.

(** C10: [format_output] is injective; the message is determined by the
    formatted block. *)
Theorem format_output_injective (m1 m2 : str) :
  format_output m1 = format_output m2 -> m1 = m2.
Proof.
  intros H.
  assert (Hlen : len m1 = len m2).
  { pose proof (f_equal len H) as L. rewrite !len_format_output in L. lia. }
  unfold format_output, border in H. rewrite Hlen in H.
  apply app_inv_head in H. apply app_inv_head in H. apply app_inv_head in H.
  apply app_inv_tail in H. exact H.
Qed.

Lemma format_output_injective_witness :
  format_output (lit "ok") = format_output (lit "ok") /\ lit "ok" = lit "ok".
Proof.
  split; [reflexivity|].
  apply (format_output_injective (lit "ok") (lit "ok")). reflexivity.
Defined.

(** ** The command line's contract *)

(** C3, as stated, fails in three ways.  With [--help] after the option,
    the file named by [--config] is readable and holds the object, yet
    the process prints the help, not the block.  On a standard output
    encoded in Latin-1 the block is printed, the success line, which
    starts with U+2705, is refused, and the process ends with the
    traceback of [UnicodeEncodeError] and status 1.  And on a device that
    is full the flush at exit fails and the status is 120. *)
Lemma demo_not_always_printed :
  (let env := sample_env ["--config"; "demo.json"; "--help"]%string in
   (referenced env (lit "demo.json")
    /\ files env (lit "demo.json") = Text demo_json
    /\ json_loads sample_runtime demo_json = inr demo_config)
   /\ exit_status (process sample_runtime env) = 0%Z
   /\ stdout (world (process sample_runtime env)) = [Help])
  /\ (let env := sample_env ["--config"; "demo.json"]%string in
      (config_is env (lit "demo.json")
       /\ files env (lit "demo.json") = Text demo_json
       /\ json_loads latin1_runtime demo_json = inr demo_config)
      /\ exit_status (process latin1_runtime env) = 1%Z
      /\ stdout (world (process latin1_runtime env))
         = [Printed (format_output (lit "Loaded config: demo"))]
      /\ stderr (world (process latin1_runtime env))
         = [Traceback UnicodeEncodeError])
  /\ (let env := sample_env ["--config"; "demo.json"]%string in
      (config_is env (lit "demo.json")
       /\ files env (lit "demo.json") = Text demo_json
       /\ json_loads full_runtime demo_json = inr demo_config)
      /\ exit_status (process full_runtime env) = 120%Z
      /\ stderr (world (process full_runtime env)) = [Ignored OSError]).
Proof.
  split; [|split]; cbv zeta.
  - split; [split; [|split; reflexivity]|split; reflexivity].
    exists [], [lit "--help"]. reflexivity.
  - repeat split.
  - repeat split.
Qed.

(** C3, amended: when the parser comes back with the path given to
    [--config], the file there reads as a text that the decoder turns
    into the object with the one member name : demo, and standard output
    takes the block, the success line and the flush at exit, the process
    writes to standard output the block of ["Loaded config: demo"] and
    then the success line, nothing else, and exits with status 0. *)
Theorem cli_demo (rt : Runtime) (env : Env) (p content : str) :
  config_is env p ->
  files env p = Text content ->
  json_loads rt content = inr demo_config ->
  stdout_takes rt []
    [format_output (lit "Loaded config: demo"); success_line] ->
  exit_status (process rt env) = 0%Z
  /\ stdout (world (process rt env))
     = [Printed (format_output (lit "Loaded config: demo"));
        Printed success_line]
  /\ stderr (world (process rt env)) = [].
Proof.
  intros Hp Hf Hj Hout.
  rewrite (process_loaded rt env p content _ (VStr (lit "demo"))
             Hp Hf Hj eq_refl Hout).
  repeat split.
Qed.

Lemma cli_demo_witness :
  let env := sample_env ["--config"; "demo.json"]%string in
  (config_is env (lit "demo.json")
   /\ files env (lit "demo.json") = Text demo_json
   /\ json_loads sample_runtime demo_json = inr demo_config
   /\ stdout_takes sample_runtime []
        [format_output (lit "Loaded config: demo"); success_line])
  /\ exit_status (process sample_runtime env) = 0%Z
  /\ stdout (world (process sample_runtime env))
     = [Printed (format_output (lit "Loaded config: demo"));
        Printed success_line]
  /\ stderr (world (process sample_runtime env)) = [].
Proof.
  intros env.
  assert (Hp : config_is env (lit "demo.json")) by reflexivity.
  assert (Hf : files env (lit "demo.json") = Text demo_json) by reflexivity.
  assert (Hj : json_loads sample_runtime demo_json = inr demo_config)
    by reflexivity.
  assert (Hout : stdout_takes sample_runtime []
                   [format_output (lit "Loaded config: demo"); success_line])
    by (repeat split).
  split; [repeat split; assumption|].
  exact (cli_demo sample_runtime env (lit "demo.json") demo_json Hp Hf Hj Hout).
Defined.







(** C6, as stated, fails: the JSON string of the escape for U+D800 is a
    JSON value that the decoder accepts under ["name"], but a standard
    output encoded in UTF-8 refuses the block that holds it: the process
    ends with the traceback of [UnicodeEncodeError] and status 1, and
    nothing is printed. *)
Lemma surrogate_name_fails :
  let env := sample_env ["--config"; "surrogate.json"]%string in
  (config_is env (lit "surrogate.json")
   /\ files env (lit "surrogate.json") = Text surrogate_json
   /\ json_loads sample_runtime surrogate_json
      = inr (VDict [(lit "name", VStr [55296%N])])
   /\ Argparse.assoc (lit "name") [(lit "name", VStr [55296%N])]
      = Some (VStr [55296%N]))
  /\ exit_status (process sample_runtime env) = 1%Z
  /\ stdout (world (process sample_runtime env)) = []
  /\ stderr (world (process sample_runtime env))
     = [Traceback UnicodeEncodeError].
Proof. cbv zeta. repeat split. Qed.

(** C6, amended: whatever value [v] the decoder delivers under ["name"],
    a string or not, if standard output takes the block, the success line
    and the flush at exit, the configuration is accepted: the process
    exits with status 0, and the message handed to the formatter is
    ["Loaded config: "] followed by [str(v)]. *)
Theorem any_name_accepted (rt : Runtime) (env : Env) (p content : str)
  (items : list (str * value)) (v : value) :
  config_is env p ->
  files env p = Text content ->
  json_loads rt content = inr (VDict items) ->
  Argparse.assoc (lit "name") items = Some v ->
  stdout_takes rt []
    [format_output (lit "Loaded config: " ++ py_str rt v); success_line] ->
  exit_status (process rt env) = 0%Z
  /\ stdout (world (process rt env))
     = [Printed (format_output (lit "Loaded config: " ++ py_str rt v));
        Printed success_line]
  /\ stderr (world (process rt env)) = [].
Proof.
  intros Hp Hf Hj Hk Hout.
  rewrite (process_loaded rt env p content items v Hp Hf Hj Hk Hout).
  repeat split.
Qed.

Lemma any_name_accepted_witness :
  let env := sample_env ["--config"; "number.json"]%string in
  (config_is env (lit "number.json")
   /\ files env (lit "number.json") = Text number_json
   /\ json_loads sample_runtime number_json
      = inr (VDict [(lit "name", VInt 42)])
   /\ Argparse.assoc (lit "name") [(lit "name", VInt 42)] = Some (VInt 42)
   /\ stdout_takes sample_runtime []
        [format_output (lit "Loaded config: 42"); success_line])
  /\ exit_status (process sample_runtime env) = 0%Z
  /\ stdout (world (process sample_runtime env))
     = [Printed (format_output (lit "Loaded config: 42"));
        Printed success_line]
  /\ stderr (world (process sample_runtime env)) = [].
Proof.
  intros env.
  assert (Hout : stdout_takes sample_runtime []
                   [format_output (lit "Loaded config: 42"); success_line])
    by (repeat split).
  split; [repeat split|].
  exact (any_name_accepted sample_runtime env (lit "number.json") number_json
           [(lit "name", VInt 42)] (VInt 42)
           eq_refl eq_refl eq_refl eq_refl Hout).
Defined.

(** ** More on the formatted block *)

Lemma split_lines_nonempty s : split_lines s <> [].
Proof.
  destruct s as [|c s]; cbn [split_lines]; [discriminate|].
  destruct (codepoint_eqb c LF); [discriminate|].
  destruct (split_lines s); discriminate.
Qed.

(** Splitting at line feeds distributes over a line feed. *)
Lemma split_lines_at_newline s t :
  split_lines (s ++ [LF] ++ t) = split_lines s ++ split_lines t.
Proof.
  induction s as [|c s IH]; [reflexivity|].
  change ((c :: s) ++ [LF] ++ t) with (c :: (s ++ [LF] ++ t)).
  cbn [split_lines]. rewrite IH.
  destruct (codepoint_eqb c LF); [reflexivity|].
  pose proof (split_lines_nonempty s) as Hne.
  destruct (split_lines s) as [|line lines]; [contradiction|reflexivity].
Qed.

Lemma split_lines_count s : List.length (split_lines s) = 1 + newlines s.
Proof.
  unfold newlines. induction s as [|c s IH]; [reflexivity|].
  cbn [split_lines count_occ]. unfold codepoint_eqb.
  destruct (N.eq_dec c LF) as [->|Hc].
  - rewrite N.eqb_refl. cbn [List.length]. rewrite IH. reflexivity.
  - apply N.eqb_neq in Hc. rewrite Hc.
    destruct (split_lines s) as [|line lines]; [discriminate IH | exact IH].
Qed.

Lemma newlines_app s t : newlines (s ++ t) = newlines s + newlines t.
Proof. apply count_occ_app. Qed.

Lemma newlines_border m : newlines (border m) = 0.
Proof.
  unfold newlines. apply count_occ_not_In. apply times_no_newline.
Qed.

Lemma format_output_middle m :
  format_output m = border m ++ [LF] ++ middle m ++ [LF] ++ border m.
Proof.
  unfold format_output, middle. repeat rewrite <- app_assoc. reflexivity.
Qed.

(** X1: the block has [3 * len(message) + 14] characters. *)
Theorem format_output_length (message : str) :
  len (format_output message) = 3 * len message + 14.
Proof.
  rewrite format_output_middle. unfold middle, len.
  repeat rewrite length_app. fold (len (border message)).
  rewrite len_border. unfold len. simpl. lia.
Qed.

(** X2: whatever the message, the lines of the block are the border, the
    lines of ["| " + message + " |"], and the border again; so the first
    and the last line are always the border. *)
Theorem format_output_lines (message : str) :
  split_lines (format_output message)
  = [border message] ++ split_lines (middle message) ++ [border message]
  /\ hd [] (split_lines (format_output message)) = border message
  /\ last (split_lines (format_output message)) [] = border message.
Proof.
  assert (H : split_lines (format_output message)
              = [border message] ++ split_lines (middle message)
                  ++ [border message]).
  { rewrite format_output_middle.
    rewrite split_lines_at_newline, split_lines_at_newline.
    rewrite !(split_lines_one (border message)) by apply times_no_newline.
    reflexivity. }
  split; [exact H|]. rewrite H. split; [reflexivity|].
  rewrite app_assoc. apply last_last.
Qed.

(** X3: the block has three lines more than the message has line feeds;
    so it has exactly three lines if and only if the message has none. *)
Theorem format_output_line_count (message : str) :
  List.length (split_lines (format_output message)) = 3 + newlines message
  /\ (List.length (split_lines (format_output message)) = 3
      <-> has_no_newline message).
Proof.
  assert (H : List.length (split_lines (format_output message))
              = 3 + newlines message).
  { rewrite split_lines_count, format_output_middle. unfold middle.
    rewrite !newlines_app, !newlines_border. cbn. lia. }
  split; [exact H|]. rewrite H. unfold has_no_newline, newlines.
  rewrite (count_occ_not_In N.eq_dec). lia.
Qed.

(** X4: for a message without line feed the block is a rectangle: each of
    its lines has [len(message) + 4] characters. *)
Theorem format_output_rectangle (message : str) :
  has_no_newline message ->
  Forall (fun line => len line = len message + 4)
         (split_lines (format_output message)).
Proof.
  intros Hm. rewrite format_output_middle.
  rewrite split_lines_at_newline, split_lines_at_newline.
  rewrite !(split_lines_one (border message)) by apply times_no_newline.
  rewrite (split_lines_one (middle message))
    by (apply middle_no_newline; exact Hm).
  repeat constructor; try apply len_border.
  unfold middle, len. rewrite !length_app. cbn. lia.
Qed.

Lemma format_output_rectangle_witness :
  has_no_newline (lit "demo")
  /\ Forall (fun line => len line = len (lit "demo") + 4)
            (split_lines (format_output (lit "demo"))).
Proof.
  assert (H : has_no_newline (lit "demo")).
  { intros [H|[H|[H|[H|[]]]]]; discriminate H. }
  split; [exact H | exact (format_output_rectangle (lit "demo") H)].
Defined.

(** X5: called on an object that has no length ([None], a [bool], an
    [int], a [float]), [format_output] raises [TypeError] and touches
    nothing. *)
Theorem format_output_unsized (rt : Runtime) (message : value) (w : World) :
  unsized message ->
  format_output_call rt message w = (inl (Raised TypeError), w).
Proof.
  destruct message; intros H; try contradiction H; reflexivity.
Qed.

Lemma format_output_unsized_witness :
  unsized (VInt 42)
  /\ format_output_call sample_runtime (VInt 42) untouched
     = (inl (Raised TypeError), untouched).
Proof.
  split; [exact I|].
  exact (format_output_unsized sample_runtime (VInt 42) untouched I).
Defined.

(** ** More on the runs of main.py *)

(** Every run ends in one of the five ways. *)
Lemma run_ending rt env : ending rt env (run rt env).
Proof.
  destruct (Argparse.parse_args (argv env)) as [c| |e] eqn:E.
  - destruct c as [[p|l]|].
    + destruct (files env p) as [e|e|content] eqn:Hf.
      * rewrite (run_cannot_open rt env p e E Hf).
        apply EndNotOpened. eauto.
      * rewrite (run_cannot_read rt env p e E Hf).
        apply EndNotLoaded; [exact E | rewrite Hf; discriminate].
      * destruct (json_loads rt content) as [e|v] eqn:Hj.
        -- rewrite (run_cannot_decode rt env p content e E Hf Hj).
           apply EndNotLoaded; [exact E | rewrite Hf; discriminate].
        -- destruct v as [ | | | | | |items];
             try (rewrite (run_type_error rt env p content _ E Hf Hj)
                    by discriminate;
                  apply EndNotLoaded; [exact E | rewrite Hf; discriminate]).
           destruct (Argparse.assoc (lit "name") items) as [v|] eqn:Hk.
           ++ rewrite (run_loaded rt env p content items v E Hf Hj Hk).
              apply (EndLoaded rt env p content items v E Hf Hj Hk).
           ++ rewrite (run_key_error rt env p content items E Hf Hj Hk).
              apply EndNotLoaded; [exact E | rewrite Hf; discriminate].
    + rewrite (run_no_path rt env _ E) by discriminate.
      apply EndNotOpened. eauto.
    + rewrite (run_no_path rt env _ E) by discriminate.
      apply EndNotOpened. eauto.
  - rewrite (run_help rt env E). apply EndHelp. exact E.
  - rewrite (run_rejected rt env e E). apply EndUsage. exact E.
Qed.

(** X6: whatever the command line, the files and the decoder, the file
    that [main] opens is closed again when the process ends, and [main]
    opens at most one file. *)
Theorem file_always_closed (rt : Runtime) (env : Env) :
  closed (world (run rt env)) = opened (world (run rt env))
  /\ List.length (opened (world (run rt env))) <= 1.
Proof.
  destruct (run_ending rt env) as [e H|H|e H|q e H Hf|q content items v H Hf Hj Hk];
    try (cbn; split; [reflexivity | lia]).
  destruct (prints_files rt (lit "Loaded config: " ++ py_str rt v) q)
    as [Ho Hc].
  rewrite Ho, Hc. cbn. split; [reflexivity | lia].
Qed.






(** X10: the output depends on the configuration only through
    [str(config["name"])]: two configurations whose names have the same
    [str], such as the number 42 and the string ["42"], give the same
    output and status. *)
Theorem same_str_same_output (rt : Runtime) (env env' : Env)
  (p content p' content' : str) (items items' : list (str * value))
  (v v' : value) :
  config_is env p -> files env p = Text content ->
  json_loads rt content = inr (VDict items) ->
  Argparse.assoc (lit "name") items = Some v ->
  config_is env' p' -> files env' p' = Text content' ->
  json_loads rt content' = inr (VDict items') ->
  Argparse.assoc (lit "name") items' = Some v' ->
  py_str rt v = py_str rt v' ->
  stdout (world (run rt env)) = stdout (world (run rt env'))
  /\ exit_status (run rt env) = exit_status (run rt env').
Proof.
  intros Hp Hf Hj Hk Hp' Hf' Hj' Hk' Hs.
  rewrite (run_loaded rt env p content items v Hp Hf Hj Hk).
  rewrite (run_loaded rt env' p' content' items' v' Hp' Hf' Hj' Hk').
  rewrite Hs.
  unfold prints, bind, print, loaded. cbn [stdout py_str app].
  destruct (stdout_write rt [] _); [split; reflexivity|].
  destruct (stdout_write rt [Written _] [LF]); [split; reflexivity|].
  cbn [write_stdout stdout app].
  destruct (stdout_write rt [Printed _] success_line); [split; reflexivity|].
  destruct (stdout_write rt [Printed _; Written success_line] [LF]);
    split; reflexivity.
Qed.

Lemma same_str_same_output_witness :
  let env := second_env ["--config"; "number.json"]%string in
  let env' := second_env ["--config"; "quoted.json"]%string in
  py_str second_runtime (VInt 42) = py_str second_runtime (VStr (lit "42"))
  /\ stdout (world (run second_runtime env))
     = stdout (world (run second_runtime env'))
  /\ exit_status (run second_runtime env)
     = exit_status (run second_runtime env').
Proof.
  intros env env'. split; [reflexivity|].
  exact (same_str_same_output second_runtime env env'
           (lit "number.json") number_json (lit "quoted.json")
           quoted_number_json [(lit "name", VInt 42)]
           [(lit "name", VStr (lit "42"))] (VInt 42) (VStr (lit "42"))
           eq_refl eq_refl eq_refl eq_refl eq_refl eq_refl eq_refl eq_refl
           eq_refl).
Defined.

(** X11: a file is opened only when the parser came back with a path, and
    it is the file that [--config] names. *)
Theorem opened_is_config (rt : Runtime) (env : Env) (p : str) :
  In p (opened (world (run rt env))) ->
  config_is env p /\ opened (world (run rt env)) = [p].
Proof.
  destruct (run_ending rt env) as [e H|H|e H|q e H Hf|q content items v H Hf Hj Hk];
    try (cbn; intros Hin; try contradiction Hin;
         destruct Hin as [<-|[]]; split; (exact H || reflexivity)).
  destruct (prints_files rt (lit "Loaded config: " ++ py_str rt v) q)
    as [Ho _].
  rewrite Ho. intros [<-|[]]. split; [exact H | reflexivity].
Qed.

Lemma opened_is_config_witness :
  let env := sample_env ["--config"; "notes.txt"]%string in
  In (lit "notes.txt") (opened (world (run sample_runtime env)))
  /\ config_is env (lit "notes.txt")
  /\ opened (world (run sample_runtime env)) = [lit "notes.txt"].
Proof.
  intros env.
  assert (H : In (lit "notes.txt") (opened (world (run sample_runtime env))))
    by (left; reflexivity).
  split; [exact H|].
  exact (opened_is_config sample_runtime env (lit "notes.txt") H).
Defined.



(** ** More on the command line *)

Module CommandLine.

Import Argparse.

Lemma str_eqb_true s : forall t, str_eqb s t = true -> s = t.
Proof.
  induction s as [|c s IH]; intros [|d t] H; try discriminate H;
    [reflexivity|].
  cbn [str_eqb] in H. apply andb_prop in H. destruct H as [Hc Hs].
  apply N.eqb_eq in Hc. rewrite Hc, (IH t Hs). reflexivity.
Qed.

Lemma plain_is_argument p : plain p -> parse_optional p = inr None.
Proof.
  unfold plain. intros Hp. destruct p as [|c tail]; [reflexivity|].
  cbn [parse_optional]. cbn [hd] in Hp.
  destruct (codepoint_eqb c DASH) eqn:E; [|reflexivity].
  apply N.eqb_eq in E. contradiction.
Qed.

Lemma plain_not_dashes p : plain p -> str_eqb p (lit "--") = false.
Proof.
  unfold plain. intros Hp. destruct p as [|c tail]; [reflexivity|].
  cbn [hd] in Hp. cbn. destruct (codepoint_eqb c 45%N) eqn:E; [|reflexivity].
  apply N.eqb_eq in E. contradiction.
Qed.

(** The pattern of a plain string followed by more. *)
Lemma pattern_plain p rest :
  plain p ->
  arg_strings_pattern (p :: rest)
  = match arg_strings_pattern rest with
    | inl e => inl e
    | inr parts => inr ((p, A) :: parts)
    end.
Proof.
  intros Hp. cbn [arg_strings_pattern].
  rewrite (plain_not_dashes p Hp), (plain_is_argument p Hp). reflexivity.
Qed.

(** The pattern of an abbreviation of [--config] followed by more. *)
Lemma pattern_config a rest :
  In a config_abbreviations ->
  arg_strings_pattern (a :: rest)
  = match arg_strings_pattern rest with
    | inl e => inl e
    | inr parts =>
        inr ((a, O (Some StoreConfig, lit "--config", None)) :: parts)
    end.
Proof.
  intros Ha. cbn [arg_strings_pattern].
  repeat (destruct Ha as [<-|Ha]; [reflexivity|]). contradiction Ha.
Qed.

Lemma get_values_plain p : plain p -> get_values [p] = Single p.
Proof.
  intros Hp. unfold get_values. cbn [remove_first_dashes].
  rewrite (plain_not_dashes p Hp). reflexivity.
Qed.

End CommandLine.

(** X13: [--config], or any abbreviation of it down to [--c], followed by
    a path without leading dash is accepted and names that path. *)
Theorem abbreviation_accepted (a p : str) :
  In a config_abbreviations -> plain p ->
  Argparse.parse_args [a; p] = Argparse.Namespace (Some (Argparse.Single p)).
Proof.
  intros Ha Hp. unfold Argparse.parse_args.
  rewrite (CommandLine.pattern_config a [p] Ha).
  rewrite (CommandLine.pattern_plain p [] Hp).
  cbn [Argparse.arg_strings_pattern Argparse.consume Argparse.nargs app
       Argparse.take_actions].
  rewrite (CommandLine.get_values_plain p Hp). reflexivity.
Qed.

Lemma abbreviation_accepted_witness :
  (In (lit "--conf") config_abbreviations /\ plain (lit "demo.json"))
  /\ Argparse.parse_args [lit "--conf"; lit "demo.json"]
     = Argparse.Namespace (Some (Argparse.Single (lit "demo.json"))).
Proof.
  assert (Ha : In (lit "--conf") config_abbreviations).
  { right. right. right. left. reflexivity. }
  assert (Hp : plain (lit "demo.json")) by discriminate.
  split; [split; assumption|].
  exact (abbreviation_accepted (lit "--conf") (lit "demo.json") Ha Hp).
Defined.

(** X14: when [--config] is given twice, the last one wins. *)
Theorem last_config_wins (p q : str) :
  plain p -> plain q ->
  Argparse.parse_args [lit "--config"; p; lit "--config"; q]
  = Argparse.Namespace (Some (Argparse.Single q)).
Proof.
  intros Hp Hq. unfold Argparse.parse_args.
  assert (Hc : In (lit "--config") config_abbreviations).
  { do 5 right. left. reflexivity. }
  rewrite (CommandLine.pattern_config _ _ Hc).
  rewrite (CommandLine.pattern_plain p _ Hp).
  rewrite (CommandLine.pattern_config _ _ Hc).
  rewrite (CommandLine.pattern_plain q [] Hq).
  cbn [Argparse.arg_strings_pattern Argparse.consume Argparse.nargs app
       Argparse.take_actions].
  rewrite (CommandLine.get_values_plain p Hp).
  rewrite (CommandLine.get_values_plain q Hq). reflexivity.
Qed.

Lemma last_config_wins_witness :
  (plain (lit "a.json") /\ plain (lit "b.json"))
  /\ Argparse.parse_args
       [lit "--config"; lit "a.json"; lit "--config"; lit "b.json"]
     = Argparse.Namespace (Some (Argparse.Single (lit "b.json"))).
Proof.
  assert (Hp : plain (lit "a.json")) by discriminate.
  assert (Hq : plain (lit "b.json")) by discriminate.
  split; [split; assumption|].
  exact (last_config_wins (lit "a.json") (lit "b.json") Hp Hq).
Defined.



(** X16: written as [--config=p], every path is accepted except ["--"],
    one with a leading dash included. *)
Theorem config_equals_accepted (p : str) :
  p <> lit "--" ->
  Argparse.parse_args [config_equals p]
  = Argparse.Namespace (Some (Argparse.Single p)).
Proof.
  intros Hp.
  assert (Hd : str_eqb p (lit "--") = false).
  { destruct (str_eqb p (lit "--")) eqn:E; [|reflexivity].
    exfalso. apply Hp. apply CommandLine.str_eqb_true. exact E. }
  unfold Argparse.parse_args, config_equals.
  cbn [Argparse.arg_strings_pattern].
  change (str_eqb (lit "--config=" ++ p) (lit "--")) with false.
  change (Argparse.parse_optional (lit "--config=" ++ p))
    with (@inr Argparse.arg_error _
            (Some (Some Argparse.StoreConfig, lit "--config", Some p))).
  cbn [Argparse.consume].
  assert (Hx : Argparse.consume_explicit Argparse.StoreConfig
                 (lit "--config") p
               = inr ([(Argparse.StoreConfig, [p], lit "--config")], None)).
  { destruct p; reflexivity. }
  rewrite Hx. cbn [Argparse.take_actions]. unfold Argparse.get_values.
  cbn [Argparse.remove_first_dashes]. rewrite Hd. reflexivity.
Qed.

Lemma config_equals_accepted_witness :
  lit "-x.json" <> lit "--"
  /\ Argparse.parse_args [config_equals (lit "-x.json")]
     = Argparse.Namespace (Some (Argparse.Single (lit "-x.json"))).
Proof.
  assert (H : lit "-x.json" <> lit "--") by discriminate.
  split; [exact H | exact (config_equals_accepted (lit "-x.json") H)].
Defined.

Module HelpFirst.

Import Argparse.




End HelpFirst.


